(** * next-url-state: query-string state hooks

    A shallow embedding of [src/useQueryState.ts] (the single-key hook) and
    of the multi-key hook [useQueryStates], followed by the properties their
    setters are specified to have.

    TypeScript types are erased at run time, so typed values, raw query
    values and objects all live in one universe of run-time values.  JS
    objects used as dictionaries are finite maps from property names to
    values; a property may be present and hold [undefined].

    The first rendering of the hooks takes the caller's [parse], [serialize]
    and updaters as functions that always return and reads objects by their
    own properties.  The module [Precise] renders the same lines with
    exceptions and with the members inherited from [Object.prototype]; the
    last part shows where the two agree. *)

From Stdlib Require Import ZArith Ascii DecimalString.
From stdpp Require Import gmap strings list fin_maps pretty.

Set Warnings "-register-all".
Set Default Proof Using "Type".

(** ** Run-time values *)

Inductive jsval : Type :=
  | VUndefined
  | VNull
  | VNum (n : Z)
  | VStr (s : string)
  | VArr (l : list jsval)
  | VObj (o : gmap string jsval).

Abbreviation jsobj := (gmap string jsval).

(** [x === undefined] *)
Definition is_undefined (x : jsval) : bool :=
  match x with VUndefined => true | _ => false end.

(** Property read [o[k]] among the own properties: a missing property reads
    as [undefined].  ([Precise.get] adds the inherited members.) *)
Definition get (o : jsobj) (k : string) : jsval := default VUndefined (o !! k).

(** [k in o] among the own properties.  ([Precise.has] adds the inherited
    members.) *)
Definition has (o : jsobj) (k : string) : bool :=
  match o !! k with Some _ => true | None => false end.

(** Object spread [{ ...a, ...b }]: properties of [b] win. *)
Definition spread (a b : jsobj) : jsobj := b ∪ a.

(** ** Declarations of [./defs] and the navigation service

    [HistoryOptions] is the string-literal union ["push" | "replace"].
    [Serializers] has a mandatory [parse] and an optional [serialize]
    (the multi-key hook calls [v.parse] directly and guards [v.serialize]
    with [||]).  Transition options are forwarded opaquely. *)

Inductive HistoryOptions : Type := push | replace.

Record Serializers : Type := mkSerializers {
  parse : jsval → jsval;
  serialize : option (jsval → jsval)
}.

(** The [query] field given to the batch router is an object or a function
    from the current query to the next one. *)
Inductive QueryUpdater : Type :=
  | QueryObject (o : jsobj)
  | QueryFunction (f : jsobj → jsobj).

(** One recorded call [batchRouter.<method>({ query }, as, transitionOptions)]. *)
Record NavCall : Type := mkNavCall {
  method : HistoryOptions;
  query : QueryUpdater;
  asPath : jsval;
  transition : jsval
}.

(** The batch router is an external service; calls to it are the only
    effect of the setters, kept as a chronological log. *)
Module batchRouter.
Definition push (q : QueryUpdater) (asPath transitionOptions : jsval)
    (log : list NavCall) : list NavCall :=
  log ++ [mkNavCall push q asPath transitionOptions].

Definition replace (q : QueryUpdater) (asPath transitionOptions : jsval)
    (log : list NavCall) : list NavCall :=
  log ++ [mkNavCall replace q asPath transitionOptions].
End batchRouter.

(** [call[0].query(current)], the way the patch of a recorded call is run:
    only a function can be called. *)
Definition callQuery (c : NavCall) (current : jsobj) : option jsobj :=
  match query c with
  | QueryFunction f => Some (f current)
  | QueryObject _ => None
  end.

(** [a || b] for an optional history mode: both literals are non-empty
    strings, hence truthy, so only [undefined] falls through to [b]. *)
Definition or_else (a : option HistoryOptions) (b : HistoryOptions) : HistoryOptions :=
  match a with Some h => h | None => b end.

(** ** [useQueryState.ts]: the single-key hook *)

Module UseQueryState.

Record UseQueryStateOptions : Type := mkOptions {
  history : option HistoryOptions;
  dynamic : option bool;
  parse : option (jsval → jsval);
  serialize : option (jsval → jsval)
}.

Record SetQueryStateOptions : Type := mkSetOptions {
  set_history : option HistoryOptions
}.

(** The setter's first argument, [T | ((prev: T) => T)]. *)
Inductive StateUpdater : Type :=
  | Direct (v : jsval)
  | Updater (f : jsval → jsval).

Definition isUpdaterFunction (input : StateUpdater) : bool :=
  match input with Updater _ => true | Direct _ => false end.

(** The default [parse] of the parameter list:
    [(x) => (x === undefined ? null : x)]. *)
Definition default_parse (x : jsval) : jsval :=
  if is_undefined x then VNull else x.

Section Hook.
(** The four destructured parameters, after their defaults. *)
Variables (key : string) (history : HistoryOptions)
          (parse serialize : jsval → jsval).

(** [const queryUpdater = isUpdaterFunction(stateUpdater) ? ... : ...] *)
Definition queryUpdater (stateUpdater : StateUpdater) : QueryUpdater :=
  match stateUpdater with
  | Updater f =>
      QueryFunction (λ prevObj,
        let newVal := serialize (f (parse (get prevObj key))) in
        if negb (is_undefined newVal) then <[key := newVal]> prevObj
        else prevObj)
  | Direct v => QueryObject {[ key := serialize v ]}
  end.

Definition historyMode (options : option SetQueryStateOptions) : HistoryOptions :=
  or_else (options ≫= set_history) history.

Definition update (stateUpdater : StateUpdater)
    (options : option SetQueryStateOptions) (transitionOptions : jsval)
    (log : list NavCall) : list NavCall :=
  match historyMode options with
  | push =>
      batchRouter.push (queryUpdater stateUpdater) VUndefined transitionOptions log
  | _ =>
      batchRouter.replace (queryUpdater stateUpdater) VUndefined transitionOptions log
  end.
End Hook.

(** [useQueryState(key, options)] during one render over the router's
    current query; [useMemo] and [useCallback] return what their callback
    computes.  [defaultSerializer] is imported from [./utils] and is a
    parameter here. *)
Definition useQueryState (defaultSerializer : jsval → jsval)
    (routerQuery : jsobj) (key : string) (options : option UseQueryStateOptions) :
    jsval * (StateUpdater → option SetQueryStateOptions → jsval →
             list NavCall → list NavCall) :=
  let history := default replace (options ≫= history) in
  let parse := default default_parse (options ≫= parse) in
  let serialize := default defaultSerializer (options ≫= serialize) in
  let routerValue := get routerQuery key in
  let value := parse routerValue in
  (value, update key history parse serialize).

End UseQueryState.

(** ** The multi-key hook [useQueryStates] *)

Module UseQueryStates.

Record UseQueryStatesOptions : Type := mkOptions {
  history : option HistoryOptions
}.

(** The per-call options [{ history: HistoryOptions }]: the field is
    mandatory in this hook. *)
Record SetValuesOptions : Type := mkSetOptions {
  set_history : HistoryOptions
}.

(** The setter's first argument, [Partial<Values<T>> | UpdaterFn<T>]. *)
Inductive StateUpdater : Type :=
  | Direct (vals : jsobj)
  | UpdaterFn (f : jsobj → jsobj).

Definition isUpdaterFunction (input : StateUpdater) : bool :=
  match input with UpdaterFn _ => true | Direct _ => false end.

(** [for (const [k, v] of Object.entries(keys)) values[k] = v.parse(query[k])] *)
Definition parseObject (query : jsobj) (keys : gmap string Serializers) : jsobj :=
  map_fold (λ k v values, <[k := parse v (get query k)]> values) ∅ keys.

Section Hook.
(** [defaultSerializer] is imported from [./utils]. *)
Variable defaultSerializer : jsval → jsval.

(** One iteration of the loop of [serializeAndRemoveUndefined]. *)
Definition serializeStep (vals : jsobj) (k : string) (v : Serializers)
    (serialized : jsobj) : jsobj :=
  if has vals k then
    let serializedVal :=
      (default defaultSerializer (serialize v)) (VObj vals) in
    if negb (is_undefined serializedVal) then <[k := serializedVal]> serialized
    else serialized
  else serialized.

Definition serializeAndRemoveUndefined (vals : jsobj)
    (keys : gmap string Serializers) : jsobj :=
  map_fold (serializeStep vals) ∅ keys.

Variables (keys : gmap string Serializers) (history : HistoryOptions).

Definition queryUpdater (stateUpdater : StateUpdater) : QueryUpdater :=
  match stateUpdater with
  | UpdaterFn f =>
      QueryFunction (λ prevObj,
        let prev := parseObject prevObj keys in
        let updated := f prev in
        spread prevObj (serializeAndRemoveUndefined updated keys))
  | Direct vals => QueryObject (serializeAndRemoveUndefined vals keys)
  end.

Definition historyMode (options : option SetValuesOptions) : HistoryOptions :=
  or_else (set_history <$> options) history.

Definition update (stateUpdater : StateUpdater)
    (options : option SetValuesOptions) (transitionOptions : jsval)
    (log : list NavCall) : list NavCall :=
  match historyMode options with
  | push =>
      batchRouter.push (queryUpdater stateUpdater) VUndefined transitionOptions log
  | _ =>
      batchRouter.replace (queryUpdater stateUpdater) VUndefined transitionOptions log
  end.
End Hook.

Definition useQueryStates (defaultSerializer : jsval → jsval)
    (routerQuery : jsobj) (keys : gmap string Serializers)
    (options : option UseQueryStatesOptions) :
    jsobj * (StateUpdater → option SetValuesOptions → jsval →
             list NavCall → list NavCall) :=
  let history := default replace (options ≫= history) in
  let values := parseObject routerQuery keys in
  (values, update defaultSerializer keys history).

End UseQueryStates.

(** ** The dependency array of the memoised value *)

Module Memo.

(** One entry of a dependency array: a value or a function. *)
Inductive Dep : Type :=
  | DepValue (v : jsval)
  | DepFunction (f : jsval → jsval).

Section Join.
(** The string conversion of an array element that is neither a string nor
    [null] nor [undefined]. *)
Variable ToString : jsval → string.

(** What [join] writes for one element: [null] and [undefined] give the
    empty string. *)
Definition elementString (v : jsval) : string :=
  match v with
  | VStr s => s
  | VUndefined | VNull => ""
  | _ => ToString v
  end.

(** [l.join(sep)] *)
Definition join (sep : string) (l : list jsval) : string :=
  String.concat sep (elementString <$> l).

(** The dependency array of [useMemo] in [useQueryState]:
    [[Array.isArray(routerValue) ? routerValue.join("|") : routerValue,
      ...(dynamic ? [parse, serialize] : [null, null])]]. *)
Definition valueDeps (routerValue : jsval) (dynamic : bool)
    (parse serialize : jsval → jsval) : list Dep :=
  DepValue match routerValue with
           | VArr l => VStr (join "|" l)
           | _ => routerValue
           end
  :: (if dynamic then [DepFunction parse; DepFunction serialize]
      else [DepValue VNull; DepValue VNull]).
End Join.

End Memo.

(** A string without the separator ["|"]. *)
Fixpoint bar_free (s : string) : bool :=
  match s with
  | EmptyString => true
  | String a r => negb (Ascii.eqb a "|"%char) && bar_free r
  end.

(** ** The hooks with exceptions and inherited properties

    The definitions above take [parse], [serialize] and the updaters as
    functions that always return, and read objects by their own properties.
    This module renders the same source lines without those two
    restrictions: a caller's function may throw, in which case the exception
    propagates out of the code that called it, and a property read [o[k]]
    or test [k in o] on a plain object also finds the members inherited
    from [Object.prototype]. *)

Module Precise.

(** The result of running caller code: it returns a value or throws. *)
Inductive outcome (A : Type) : Type :=
  | Returns (a : A)
  | Throws.
Arguments Returns {A} a.
Arguments Throws {A}.

#[global] Instance outcome_ret : MRet outcome := @Returns.
#[global] Instance outcome_bind : MBind outcome := λ A B k x,
  match x with
  | Returns a => k a
  | Throws => Throws
  end.

(** [o[k]] on a plain object: the own property, else the member inherited
    from [Object.prototype], else [undefined]. *)
Definition get (objectPrototype o : jsobj) (k : string) : jsval :=
  match o !! k with
  | Some v => v
  | None => default VUndefined (objectPrototype !! k)
  end.

(** [k in o] on a plain object: own or inherited. *)
Definition has (objectPrototype o : jsobj) (k : string) : bool :=
  match o !! k with
  | Some _ => true
  | None => match objectPrototype !! k with Some _ => true | None => false end
  end.

(** The own properties after the assignment [o[k] = v] on an object built
    from [{}] by such assignments: ["__proto__"] goes to the inherited
    setter and adds no own property, every other name becomes an own
    property. *)
Definition assign (o : jsobj) (k : string) (v : jsval) : jsobj :=
  if decide (k = "__proto__") then o else <[k := v]> o.

Record Serializers : Type := mkSerializers {
  parse : jsval → outcome jsval;
  serialize : option (jsval → outcome jsval)
}.

(** The [query] field given to the batch router; running a patch function
    runs caller code. *)
Inductive QueryUpdater : Type :=
  | QueryObject (o : jsobj)
  | QueryFunction (f : jsobj → outcome jsobj).

Record NavCall : Type := mkNavCall {
  method : HistoryOptions;
  query : QueryUpdater;
  asPath : jsval;
  transition : jsval
}.

(** A setter is a computation over the log of the navigation service that
    returns or throws. *)
Definition Setter : Type := list NavCall → outcome unit * list NavCall.

Definition batchRouter_push (q : QueryUpdater) (asPath transitionOptions : jsval) : Setter :=
  λ log, (Returns (), log ++ [mkNavCall push q asPath transitionOptions]).

Definition batchRouter_replace (q : QueryUpdater) (asPath transitionOptions : jsval) : Setter :=
  λ log, (Returns (), log ++ [mkNavCall replace q asPath transitionOptions]).

(** An exception raised before the navigation call leaves the log as it is. *)
Definition throw : Setter := λ log, (Throws, log).

(** *** The single-key hook *)

Module QueryState.

Inductive StateUpdater : Type :=
  | Direct (v : jsval)
  | Updater (f : jsval → outcome jsval).

Section Hook.
Variable objectPrototype : jsobj.
Variables (key : string) (history : HistoryOptions).
Variables (parse serialize : jsval → outcome jsval).

(** [const queryUpdater = ...]: the direct branch runs [serialize] at once,
    the functional branch only builds the patch function. *)
Definition queryUpdater (stateUpdater : StateUpdater) : outcome QueryUpdater :=
  match stateUpdater with
  | Updater f =>
      Returns (QueryFunction (λ prevObj,
        prev ← parse (get objectPrototype prevObj key);
        next ← f prev;
        newVal ← serialize next;
        Returns (if negb (is_undefined newVal) then <[key := newVal]> prevObj
                 else prevObj)))
  | Direct v =>
      serialized ← serialize v;
      Returns (QueryObject {[ key := serialized ]})
  end.

Definition update (stateUpdater : StateUpdater)
    (options : option UseQueryState.SetQueryStateOptions)
    (transitionOptions : jsval) : Setter :=
  match queryUpdater stateUpdater with
  | Throws => throw
  | Returns q =>
      match UseQueryState.historyMode history options with
      | push => batchRouter_push q VUndefined transitionOptions
      | _ => batchRouter_replace q VUndefined transitionOptions
      end
  end.
End Hook.

End QueryState.

(** *** The multi-key hook *)

Module QueryStates.

Inductive StateUpdater : Type :=
  | Direct (vals : jsobj)
  | UpdaterFn (f : jsobj → outcome jsobj).

Section Hook.
Variable objectPrototype : jsobj.

(** [for (const [k, v] of Object.entries(keys)) values[k] = v.parse(query[k])] *)
Definition parseObject (query : jsobj) (keys : gmap string Serializers) :
    outcome jsobj :=
  map_fold (λ k v (acc : outcome jsobj),
      values ← acc;
      parsed ← parse v (get objectPrototype query k);
      Returns (assign values k parsed)) (Returns ∅) keys.

Variable defaultSerializer : jsval → outcome jsval.

Definition serializeStep (vals : jsobj) (k : string) (v : Serializers)
    (acc : outcome jsobj) : outcome jsobj :=
  serialized ← acc;
  if has objectPrototype vals k then
    serializedVal ← (default defaultSerializer (serialize v)) (VObj vals);
    Returns (if negb (is_undefined serializedVal)
             then assign serialized k serializedVal
             else serialized)
  else Returns serialized.

Definition serializeAndRemoveUndefined (vals : jsobj)
    (keys : gmap string Serializers) : outcome jsobj :=
  map_fold (serializeStep vals) (Returns ∅) keys.

Variables (keys : gmap string Serializers) (history : HistoryOptions).

Definition queryUpdater (stateUpdater : StateUpdater) : outcome QueryUpdater :=
  match stateUpdater with
  | UpdaterFn f =>
      Returns (QueryFunction (λ prevObj,
        prev ← parseObject prevObj keys;
        updated ← f prev;
        serialized ← serializeAndRemoveUndefined updated keys;
        Returns (spread prevObj serialized)))
  | Direct vals =>
      serialized ← serializeAndRemoveUndefined vals keys;
      Returns (QueryObject serialized)
  end.

Definition update (stateUpdater : StateUpdater)
    (options : option UseQueryStates.SetValuesOptions)
    (transitionOptions : jsval) : Setter :=
  match queryUpdater stateUpdater with
  | Throws => throw
  | Returns q =>
      match UseQueryStates.historyMode history options with
      | push => batchRouter_push q VUndefined transitionOptions
      | _ => batchRouter_replace q VUndefined transitionOptions
      end
  end.
End Hook.

(** [useQueryStates(keys, options)] during one render: parsing the query
    may throw, and then the hook returns nothing. *)
Definition useQueryStates (objectPrototype : jsobj)
    (defaultSerializer : jsval → outcome jsval)
    (routerQuery : jsobj) (keys : gmap string Serializers)
    (options : option UseQueryStates.UseQueryStatesOptions) :
    outcome (jsobj * (StateUpdater → option UseQueryStates.SetValuesOptions →
                      jsval → Setter)) :=
  let history := default replace (options ≫= UseQueryStates.history) in
  values ← parseObject objectPrototype routerQuery keys;
  Returns (values, update objectPrototype defaultSerializer keys history).

(** What the values object holds for one key of the key map, when its
    [parse] returns. *)
Definition parsedEntry (objectPrototype query : jsobj) (k : string)
    (v : Serializers) : option jsval :=
  match parse v (get objectPrototype query k) with
  | Returns parsed => Some parsed
  | Throws => None
  end.

(** What the serialized partial holds for one key of the key map, when its
    serializer returns. *)
Definition serializedEntry (objectPrototype : jsobj)
    (defaultSerializer : jsval → outcome jsval) (vals : jsobj) (k : string)
    (v : Serializers) : option jsval :=
  if has objectPrototype vals k then
    match (default defaultSerializer (serialize v)) (VObj vals) with
    | Returns serializedVal =>
        if negb (is_undefined serializedVal) then Some serializedVal else None
    | Throws => None
    end
  else None.

End QueryStates.

(** [call[0].query(current)]: calling a [query] that is not a function
    throws. *)
Definition callQuery (c : NavCall) (current : jsobj) : outcome jsobj :=
  match query c with
  | QueryFunction f => f current
  | QueryObject _ => Throws
  end.

(** A function that always returns, as caller code. *)
Definition total {A B : Type} (f : A → B) : A → outcome B := λ x, Returns (f x).

End Precise.

(** A serializer pair whose functions always return, as [Precise] takes it. *)
Definition totalSerializers (v : Serializers) : Precise.Serializers :=
  Precise.mkSerializers (Precise.total (parse v))
    (Precise.total <$> serialize v).

(** ** Serializers of the examples *)

Module utils.

(** Modelled from the spec: [defaultSerializer] of [./utils] is not among
    the sources; the spec describes it as the type-preserving identity on
    [string | string[] | null]. *)
Definition defaultSerializer (x : jsval) : jsval := x.

End utils.

Module queryTypes.

(** Modelled from the spec: [queryTypes.integer], used by the test suite,
    is not among the sources.  It reads a decimal string as a number and
    writes a number as its decimal string; [undefined] serializes to
    [undefined].  Only those inputs are exercised below. *)
Definition integer_parse (v : jsval) : jsval :=
  match v with
  | VStr s =>
      match NilZero.int_of_string s with
      | Some i => VNum (Z.of_int i)
      | None => VNull
      end
  | _ => VNull
  end.

Definition integer_serialize (v : jsval) : jsval :=
  match v with
  | VNum n => VStr (pretty n)
  | _ => VUndefined
  end.

Definition integer : Serializers := mkSerializers integer_parse (Some integer_serialize).

End queryTypes.

(** Caller code of the examples. *)
Module Sample.

(** A caller-written pair whose [serialize] is [(v) => v]. *)
Definition verbatim : Serializers :=
  mkSerializers UseQueryState.default_parse (Some (λ v, v)).

(** The updater [(prev) => prev + 1] on numbers. *)
Definition increment (prev : jsval) : jsval :=
  match prev with VNum n => VNum (n + 1) | _ => VUndefined end.

End Sample.

(** Caller code and a realm for the examples of [Precise]. *)
Module PreciseSample.

(** The member names of [Object.prototype] in a standard realm.  The members
    are function objects (an accessor for ["__proto__"]); they stand here as
    empty objects, only their names matter below. *)
Definition objectPrototype : jsobj :=
  list_to_map ((λ name, (name, VObj ∅)) <$>
    ["constructor"; "hasOwnProperty"; "isPrototypeOf"; "propertyIsEnumerable";
     "toLocaleString"; "toString"; "valueOf"; "__defineGetter__";
     "__defineSetter__"; "__lookupGetter__"; "__lookupSetter__"; "__proto__"]).

(** A caller-written pair whose [serialize] is [(v) => v]. *)
Definition verbatim : Precise.Serializers :=
  Precise.mkSerializers (Precise.total UseQueryState.default_parse)
    (Some (Precise.total (λ v, v))).

(** A caller-written [serialize] that throws on every input. *)
Definition failing : jsval → Precise.outcome jsval := λ _, Precise.Throws.

End PreciseSample.

(** A version of [serializeAndRemoveUndefined] following the specification's
    words: each key of the update mapping that the key map knows is
    serialized from that key's own updated value. *)
Definition serializeAndRemoveUndefined_spec (defaultSerializer : jsval → jsval)
    (vals : jsobj) (keys : gmap string Serializers) : jsobj :=
  map_fold (λ k v serialized,
      if has vals k then
        let serializedVal := (default defaultSerializer (serialize v)) (get vals k) in
        if negb (is_undefined serializedVal) then <[k := serializedVal]> serialized
        else serialized
      else serialized) ∅ keys.

(** What one key of the result of [serializeAndRemoveUndefined] holds: the
    serializer is given the whole update mapping. *)
Definition serializedEntry (dflt : jsval → jsval) (vals : jsobj) (k : string)
    (v : Serializers) : option jsval :=
  if has vals k then
    let serializedVal := (default dflt (serialize v)) (VObj vals) in
    if negb (is_undefined serializedVal) then Some serializedVal else None
  else None.

(** * Properties *)

(** ** Shared facts *)

Lemma lookup_spread (a b : jsobj) (k : string) :
  spread a b !! k = match b !! k with Some v => Some v | None => a !! k end.
Proof.
  unfold spread. rewrite lookup_union.
  by destruct (b !! k), (a !! k).
Qed.

Lemma get_insert_eq (o : jsobj) (k : string) (v : jsval) : get (<[k := v]> o) k = v.
Proof. unfold get. by rewrite lookup_insert_eq. Qed.

(** The loop of [parseObject] gives every key of the key map its parsed raw value. *)
Lemma lookup_parseObject (q : jsobj) (keys : gmap string Serializers) (k : string) :
  UseQueryStates.parseObject q keys !! k = (λ v, parse v (get q k)) <$> keys !! k.
Proof.
  revert k. unfold UseQueryStates.parseObject.
  apply (map_fold_weak_ind (λ r m, ∀ k, r !! k = (λ v, parse v (get q k)) <$> m !! k)).
  - intros k. by rewrite !lookup_empty.
  - intros i x m r Hi IH k.
    destruct (decide (i = k)) as [->|Hne].
    + by rewrite !lookup_insert_eq.
    + by rewrite !lookup_insert_ne.
Qed.

Lemma lookup_serializeAndRemoveUndefined (dflt : jsval → jsval) (vals : jsobj)
    (keys : gmap string Serializers) (k : string) :
  UseQueryStates.serializeAndRemoveUndefined dflt vals keys !! k
  = keys !! k ≫= serializedEntry dflt vals k.
Proof.
  revert k. unfold UseQueryStates.serializeAndRemoveUndefined.
  apply (map_fold_weak_ind
           (λ r m, ∀ k, r !! k = m !! k ≫= serializedEntry dflt vals k)).
  - intros k. by rewrite !lookup_empty.
  - intros i x m r Hi IH k.
    unfold UseQueryStates.serializeStep.
    destruct (decide (i = k)) as [->|Hne].
    + rewrite lookup_insert_eq. simpl. unfold serializedEntry.
      destruct (has vals k); [|by rewrite IH, Hi].
      simpl. destruct (is_undefined _); simpl.
      * by rewrite IH, Hi.
      * by rewrite lookup_insert_eq.
    + rewrite (lookup_insert_ne m) by done. rewrite <- IH.
      destruct (has vals i); [|done].
      simpl. destruct (is_undefined _); simpl; [done|].
      by rewrite lookup_insert_ne.
Qed.

(** Each setter appends the one call it makes to the log. *)
Lemma single_update_log key history parse serialize stateUpdater options tr log :
  UseQueryState.update key history parse serialize stateUpdater options tr log
  = log ++ [mkNavCall (UseQueryState.historyMode history options)
              (UseQueryState.queryUpdater key parse serialize stateUpdater)
              VUndefined tr].
Proof.
  unfold UseQueryState.update.
  by destruct (UseQueryState.historyMode history options).
Qed.

Lemma multi_update_log dflt keys history stateUpdater options tr log :
  UseQueryStates.update dflt keys history stateUpdater options tr log
  = log ++ [mkNavCall (UseQueryStates.historyMode history options)
              (UseQueryStates.queryUpdater dflt keys stateUpdater)
              VUndefined tr].
Proof.
  unfold UseQueryStates.update.
  by destruct (UseQueryStates.historyMode history options).
Qed.

(** ** The multi-key serializer *)

(** C1 (the code departs from the claim).  The claim: every key of the update
    mapping is serialized from that key's own updated value.  The code hands
    the serializer the whole update mapping instead: for the key map
    [{ a: { parse, serialize: (v) => v } }] and the update [{ a: "x" }] the
    patch given to the navigation service is [{ a: { a: "x" } }], where the
    claim requires [{ a: "x" }]. *)
Theorem serializeAndRemoveUndefined_passes_whole_mapping :
  let keys : gmap string Serializers := {[ "a" := Sample.verbatim ]} in
  let vals : jsobj := {[ "a" := VStr "x" ]} in
  UseQueryStates.update utils.defaultSerializer keys replace
    (UseQueryStates.Direct vals) None VUndefined []
  = [mkNavCall replace (QueryObject {[ "a" := VObj vals ]}) VUndefined VUndefined]
  ∧ serializeAndRemoveUndefined_spec utils.defaultSerializer vals keys
    = {[ "a" := VStr "x" ]}
  ∧ UseQueryStates.serializeAndRemoveUndefined utils.defaultSerializer vals keys
    ≠ serializeAndRemoveUndefined_spec utils.defaultSerializer vals keys.
Proof.
  split; [vm_compute; reflexivity|].
  split; [vm_compute; reflexivity|].
  intros H. apply (f_equal (λ m : jsobj, m !! "a")) in H.
  vm_compute in H. discriminate H.
Qed.

(** ** The single-key setter *)

Section SingleKey.
Variables (key : string) (history : HistoryOptions).
Variables (parse serialize : jsval → jsval).

Local Abbreviation setValue := (UseQueryState.update key history parse serialize).

(** C2.  When the value returned by the updater serializes to [undefined],
    the patch function handed to the navigation service returns the raw
    dictionary it is applied to, unchanged. *)
Theorem functional_update_keeps_dictionary_on_undefined
    (f : jsval → jsval) options tr log (prevObj : jsobj) :
  serialize (f (parse (get prevObj key))) = VUndefined →
  ∃ c, setValue (UseQueryState.Updater f) options tr log = log ++ [c]
       ∧ callQuery c prevObj = Some prevObj.
Proof.
  intros Hu. eexists. split; [apply single_update_log|].
  unfold callQuery. simpl. by rewrite Hu.
Qed.

(** C3.  The patch function of a functional update parses its previous
    value from the dictionary it is applied to.  For two functional updates
    in sequence, the second patch applied to the output of the first
    computes from the value the first one wrote: when both serialized
    results are defined the key ends up holding
    [serialize (f2 (parse (serialize (f1 (parse d[key])))))]. *)
Theorem functional_updates_read_previous_at_application
    (f1 f2 : jsval → jsval) o1 o2 t1 t2 log (d : jsobj) :
  let v1 := serialize (f1 (parse (get d key))) in
  let d1 := if is_undefined v1 then d else <[key := v1]> d in
  let v2 := serialize (f2 (parse (get d1 key))) in
  let d2 := if is_undefined v2 then d1 else <[key := v2]> d1 in
  ∃ c1 c2,
    setValue (UseQueryState.Updater f2) o2 t2
      (setValue (UseQueryState.Updater f1) o1 t1 log) = log ++ [c1; c2]
    ∧ callQuery c1 d = Some d1
    ∧ callQuery c2 d1 = Some d2
    ∧ (v1 ≠ VUndefined →
       serialize (f2 (parse v1)) ≠ VUndefined →
       d1 = <[key := v1]> d
       ∧ d2 = <[key := serialize (f2 (parse v1))]> d).
Proof.
  intros v1 d1 v2 d2. do 2 eexists. split; [|split; [|split]].
  - rewrite !single_update_log, <- app_assoc. reflexivity.
  - unfold callQuery. simpl. fold v1. subst d1. by destruct (is_undefined v1).
  - unfold callQuery. simpl. fold v2. subst d2. by destruct (is_undefined v2).
  - intros H1 H2.
    assert (is_undefined v1 = false) as E1 by (by destruct v1).
    assert (d1 = <[key := v1]> d) as Ed1 by (subst d1; by rewrite E1).
    split; [done|].
    assert (v2 = serialize (f2 (parse v1))) as Ev2.
    { subst v2. by rewrite Ed1, get_insert_eq. }
    assert (is_undefined v2 = false) as E2.
    { rewrite Ev2. by destruct (serialize (f2 (parse v1))). }
    subst d2. rewrite E2, <- Ev2, Ed1. apply insert_insert_eq.
Qed.

(** C10.  A direct value always yields the one-property patch object
    [{ [key]: serialize(value) }]: the key is present in it, and when
    [serialize(value)] is [undefined] the patch is [{ [key]: undefined }],
    the key still being a property of the object. *)
Theorem direct_update_patch_always_has_key (v : jsval) options tr log :
  ∃ c o, setValue (UseQueryState.Direct v) options tr log = log ++ [c]
         ∧ query c = QueryObject o
         ∧ o = {[ key := serialize v ]}
         ∧ o !! key = Some (serialize v)
         ∧ (serialize v = VUndefined →
            o = {[ key := VUndefined ]} ∧ has o key = true).
Proof.
  do 2 eexists. split; [apply single_update_log|].
  split; [reflexivity|]. split; [reflexivity|].
  split; [apply lookup_singleton_eq|].
  intros ->. split; [reflexivity|].
  unfold has. by rewrite lookup_singleton_eq.
Qed.
End SingleKey.

Lemma functional_update_keeps_dictionary_on_undefined_witness :
  ∃ c, UseQueryState.update "val" replace queryTypes.integer_parse
         queryTypes.integer_serialize (UseQueryState.Updater (λ _, VUndefined))
         None VUndefined [] = [c]
       ∧ callQuery c {[ "val" := VStr "123" ]} = Some {[ "val" := VStr "123" ]}.
Proof.
  apply (functional_update_keeps_dictionary_on_undefined "val" replace
           queryTypes.integer_parse queryTypes.integer_serialize
           (λ _, VUndefined) None VUndefined [] {[ "val" := VStr "123" ]}).
  reflexivity.
Defined.

Lemma functional_updates_read_previous_at_application_witness :
  ∃ c1 c2,
    UseQueryState.update "val" replace queryTypes.integer_parse
      queryTypes.integer_serialize (UseQueryState.Updater Sample.increment)
      None VUndefined
      (UseQueryState.update "val" replace queryTypes.integer_parse
         queryTypes.integer_serialize (UseQueryState.Updater Sample.increment)
         None VUndefined []) = [c1; c2]
    ∧ callQuery c1 {[ "val" := VStr "123" ]} = Some {[ "val" := VStr "124" ]}
    ∧ callQuery c2 {[ "val" := VStr "124" ]} = Some {[ "val" := VStr "125" ]}.
Proof.
  destruct (functional_updates_read_previous_at_application "val" replace
              queryTypes.integer_parse queryTypes.integer_serialize
              Sample.increment Sample.increment
              None None VUndefined VUndefined [] {[ "val" := VStr "123" ]})
    as (c1 & c2 & Hlog & H1 & H2 & H3).
  destruct H3 as [Ed1 Ed2];
    [vm_compute; discriminate | vm_compute; discriminate |].
  exists c1, c2. split; [exact Hlog|]. split.
  - rewrite H1. vm_compute. reflexivity.
  - rewrite Ed2, Ed1 in H2.
    vm_compute. vm_compute in H2. exact H2.
Defined.

Lemma direct_update_patch_always_has_key_witness :
  ∃ c o, UseQueryState.update "val" replace queryTypes.integer_parse
           queryTypes.integer_serialize (UseQueryState.Direct VUndefined)
           None VUndefined [] = [c]
         ∧ query c = QueryObject o
         ∧ o = {[ "val" := VUndefined ]} ∧ has o "val" = true.
Proof.
  destruct (direct_update_patch_always_has_key "val" replace
              queryTypes.integer_parse queryTypes.integer_serialize
              VUndefined None VUndefined [])
    as (c & o & Hlog & Hq & _ & _ & Hu).
  exists c, o. split; [exact Hlog|]. split; [exact Hq|].
  apply Hu. reflexivity.
Defined.

(** ** The multi-key setter *)

Section MultiKey.
Variable defaultSerializer : jsval → jsval.
Variables (keys : gmap string Serializers) (history : HistoryOptions).

Local Abbreviation setValues := (UseQueryStates.update defaultSerializer keys history).
Local Abbreviation serializeAll :=
  (UseQueryStates.serializeAndRemoveUndefined defaultSerializer).

Lemma dom_serializeAndRemoveUndefined (vals : jsobj) :
  dom (serializeAll vals keys) ⊆ dom keys ∩ dom vals.
Proof.
  intros k. rewrite elem_of_intersection, !elem_of_dom.
  rewrite lookup_serializeAndRemoveUndefined.
  destruct (keys !! k) as [v|]; simpl; [|by intros [? ?]].
  unfold serializedEntry, has.
  destruct (vals !! k); [by eauto|]. by intros [? ?].
Qed.

(** C4.  The patch function of a functional update returns the dictionary
    it is applied to, overwritten by the serialized partial: a key of the
    serialized partial holds its new value, every other key holds what the
    input dictionary held (and is absent if it was absent there). *)
Theorem multi_functional_update_merges
    (f : jsobj → jsobj) options tr log (prevObj : jsobj) :
  let serialized :=
    serializeAll (f (UseQueryStates.parseObject prevObj keys)) keys in
  ∃ c result,
    setValues (UseQueryStates.UpdaterFn f) options tr log = log ++ [c]
    ∧ callQuery c prevObj = Some result
    ∧ ∀ k, result !! k
           = match serialized !! k with
             | Some v => Some v
             | None => prevObj !! k
             end.
Proof.
  intros serialized. do 2 eexists.
  split; [apply multi_update_log|]. split; [reflexivity|].
  intros k. apply lookup_spread.
Qed.

(** C9.  Only keys of the key map reach the patch.  For a direct update the
    patch object has no key outside the key map; for a functional update the patch function leaves every key
    outside the key map as the input dictionary has it, whatever the
    updater returned for it. *)
Theorem multi_patch_only_keymap_keys :
  (∀ (vals : jsobj) options tr log,
     ∃ c o, setValues (UseQueryStates.Direct vals) options tr log = log ++ [c]
            ∧ query c = QueryObject o
            ∧ dom o ⊆ dom keys)
  ∧ (∀ (f : jsobj → jsobj) options tr log (prevObj : jsobj),
       ∃ c result,
         setValues (UseQueryStates.UpdaterFn f) options tr log = log ++ [c]
         ∧ callQuery c prevObj = Some result
         ∧ ∀ k, keys !! k = None → result !! k = prevObj !! k).
Proof.
  split.
  - intros vals options tr log. do 2 eexists.
    split; [apply multi_update_log|]. split; [reflexivity|].
    pose proof (dom_serializeAndRemoveUndefined vals). set_solver.
  - intros f options tr log prevObj. do 2 eexists.
    split; [apply multi_update_log|]. split; [reflexivity|].
    intros k Hk. rewrite lookup_spread, lookup_serializeAndRemoveUndefined.
    by rewrite Hk.
Qed.
End MultiKey.

Lemma multi_patch_only_keymap_keys_witness :
  ∃ c result,
    UseQueryStates.update utils.defaultSerializer
      {[ "a" := Sample.verbatim ]} replace
      (UseQueryStates.UpdaterFn (λ _, {[ "a" := VStr "x"; "b" := VStr "y" ]}))
      None VUndefined [] = [c]
    ∧ callQuery c {[ "b" := VStr "old" ]} = Some result
    ∧ result !! "b" = Some (VStr "old").
Proof.
  destruct (proj2 (multi_patch_only_keymap_keys utils.defaultSerializer
                     {[ "a" := Sample.verbatim ]} replace)
              (λ _, {[ "a" := VStr "x"; "b" := VStr "y" ]})
              None VUndefined [] {[ "b" := VStr "old" ]})
    as (c & result & Hlog & Hq & Hframe).
  exists c, result. split; [exact Hlog|]. split; [exact Hq|].
  rewrite (Hframe "b"); reflexivity.
Defined.

(** ** History mode and the navigation service *)

(** C5.  With no hook-level history and no per-call history, the setter of
    either hook records one call whose method is [replace]. *)
Theorem setter_defaults_to_replace :
  (∀ dflt routerQuery key opts stateUpdater options tr log,
     opts ≫= UseQueryState.history = None →
     options ≫= UseQueryState.set_history = None →
     ∃ q, (UseQueryState.useQueryState dflt routerQuery key opts).2
            stateUpdater options tr log
          = log ++ [mkNavCall replace q VUndefined tr])
  ∧ (∀ dflt routerQuery keys opts stateUpdater tr log,
       opts ≫= UseQueryStates.history = None →
       ∃ q, (UseQueryStates.useQueryStates dflt routerQuery keys opts).2
              stateUpdater None tr log
            = log ++ [mkNavCall replace q VUndefined tr]).
Proof.
  split.
  - intros dflt routerQuery key opts su options tr log Hh Ho. eexists.
    unfold UseQueryState.useQueryState. simpl.
    rewrite single_update_log. unfold UseQueryState.historyMode.
    rewrite Hh, Ho. reflexivity.
  - intros dflt routerQuery keys opts su tr log Hh. eexists.
    unfold UseQueryStates.useQueryStates. simpl.
    rewrite multi_update_log. unfold UseQueryStates.historyMode.
    rewrite Hh. reflexivity.
Qed.

Lemma setter_defaults_to_replace_witness :
  ∃ q, (UseQueryState.useQueryState utils.defaultSerializer
          {[ "val" := VStr "foo" ]} "val" None).2
         (UseQueryState.Direct (VStr "bar")) None VUndefined []
       = [mkNavCall replace q VUndefined VUndefined].
Proof.
  apply (proj1 setter_defaults_to_replace utils.defaultSerializer
           {[ "val" := VStr "foo" ]} "val" None
           (UseQueryState.Direct (VStr "bar")) None VUndefined []);
    reflexivity.
Defined.

(** C6.  The method of the recorded call is the per-call history when one is
    given, else the hook-level history when one is configured, else
    [replace]. *)
Theorem history_mode_precedence :
  (∀ dflt routerQuery key opts stateUpdater options tr log,
     ∃ q, (UseQueryState.useQueryState dflt routerQuery key opts).2
            stateUpdater options tr log
          = log ++ [mkNavCall
                      match options ≫= UseQueryState.set_history with
                      | Some perCall => perCall
                      | None =>
                          match opts ≫= UseQueryState.history with
                          | Some perHook => perHook
                          | None => replace
                          end
                      end q VUndefined tr])
  ∧ (∀ dflt routerQuery keys opts stateUpdater options tr log,
       ∃ q, (UseQueryStates.useQueryStates dflt routerQuery keys opts).2
              stateUpdater options tr log
            = log ++ [mkNavCall
                        match options with
                        | Some o => UseQueryStates.set_history o
                        | None =>
                            match opts ≫= UseQueryStates.history with
                            | Some perHook => perHook
                            | None => replace
                            end
                        end q VUndefined tr]).
Proof.
  split.
  - intros dflt routerQuery key opts su options tr log. eexists.
    unfold UseQueryState.useQueryState. simpl.
    rewrite single_update_log. unfold UseQueryState.historyMode, or_else.
    destruct (options ≫= UseQueryState.set_history); [reflexivity|].
    by destruct (opts ≫= UseQueryState.history).
  - intros dflt routerQuery keys opts su options tr log. eexists.
    unfold UseQueryStates.useQueryStates. simpl.
    rewrite multi_update_log. unfold UseQueryStates.historyMode, or_else.
    destruct options; simpl; [reflexivity|].
    by destruct (opts ≫= UseQueryStates.history).
Qed.

(** The test "history option override": a hook configured with [push],
    called once without options and once with [{ history: "replace" }]. *)
Example history_option_override :
  let setVal :=
    (UseQueryState.useQueryState utils.defaultSerializer ∅ "val"
       (Some (UseQueryState.mkOptions (Some push) None None None))).2 in
  method <$> setVal (UseQueryState.Direct (VStr "foo"))
               (Some (UseQueryState.mkSetOptions (Some replace))) VUndefined
               (setVal (UseQueryState.Direct (VStr "foo")) None VUndefined [])
  = [push; replace].
Proof. vm_compute. reflexivity. Qed.

(** ** The default parse *)

(** C7.  With no [parse] declared, the value of the single-key hook is
    [null] when the raw query has no value for the key, and the raw value
    itself when it is a string or an array of strings. *)
Theorem default_parse_absent_is_null dflt (routerQuery : jsobj) key opts :
  opts ≫= UseQueryState.parse = None →
  let value := (UseQueryState.useQueryState dflt routerQuery key opts).1 in
  (routerQuery !! key = None → value = VNull)
  ∧ (routerQuery !! key = Some VUndefined → value = VNull)
  ∧ (∀ s, routerQuery !! key = Some (VStr s) → value = VStr s)
  ∧ (∀ l, routerQuery !! key = Some (VArr (VStr <$> l)) → value = VArr (VStr <$> l)).
Proof.
  intros Hp value. subst value.
  unfold UseQueryState.useQueryState. simpl. rewrite Hp. simpl.
  unfold get, UseQueryState.default_parse.
  repeat split; intros; by simplify_option_eq.
Qed.

Lemma default_parse_absent_is_null_witness :
  (UseQueryState.useQueryState utils.defaultSerializer ∅ "val" None).1 = VNull
  ∧ (UseQueryState.useQueryState utils.defaultSerializer
       {[ "val" := VStr "foo" ]} "val" None).1 = VStr "foo".
Proof.
  split.
  - destruct (default_parse_absent_is_null utils.defaultSerializer
                ∅ "val" None eq_refl) as (Habsent & _).
    apply Habsent. reflexivity.
  - destruct (default_parse_absent_is_null utils.defaultSerializer
                {[ "val" := VStr "foo" ]} "val" None eq_refl)
      as (_ & _ & Hstr & _).
    apply Hstr. reflexivity.
Defined.


(** * Further properties of the two hooks *)

(** ** Shared facts about the patch functions *)

(** Running the patch function of a single-key functional update. *)
Lemma single_patch_apply key parse serialize f m a t (d : jsobj) :
  callQuery (mkNavCall m
               (UseQueryState.queryUpdater key parse serialize (UseQueryState.Updater f))
               a t) d
  = Some (let newVal := serialize (f (parse (get d key))) in
          if is_undefined newVal then d else <[key := newVal]> d).
Proof. unfold callQuery. simpl. by destruct (is_undefined _). Qed.

(** Running the patch function of a multi-key functional update. *)
Lemma multi_patch_apply dflt keys f m a t (d : jsobj) :
  callQuery (mkNavCall m
               (UseQueryStates.queryUpdater dflt keys (UseQueryStates.UpdaterFn f))
               a t) d
  = Some (spread d (UseQueryStates.serializeAndRemoveUndefined dflt
                      (f (UseQueryStates.parseObject d keys)) keys)).
Proof. reflexivity. Qed.

Lemma get_insert_ne (o : jsobj) (k k' : string) (v : jsval) :
  k ≠ k' → get (<[k := v]> o) k' = get o k'.
Proof. intros Hne. unfold get. by rewrite lookup_insert_ne. Qed.


Lemma is_undefined_true (v : jsval) : is_undefined v = true → v = VUndefined.
Proof. by destruct v. Qed.

(** ** Navigation arguments *)

(** X1.  The transition options given to a setter are the third argument of
    the call it records, unchanged, and the second argument is always
    [undefined], in both hooks and for either history mode. *)
Theorem transition_options_forwarded :
  (∀ key history parse serialize stateUpdater options tr log,
     ∃ c, UseQueryState.update key history parse serialize
            stateUpdater options tr log = log ++ [c]
          ∧ transition c = tr ∧ asPath c = VUndefined)
  ∧ (∀ dflt keys history stateUpdater options tr log,
       ∃ c, UseQueryStates.update dflt keys history
              stateUpdater options tr log = log ++ [c]
            ∧ transition c = tr ∧ asPath c = VUndefined).
Proof.
  split; intros; eexists.
  - split; [apply single_update_log|]. by split.
  - split; [apply multi_update_log|]. by split.
Qed.

(** ** The values of the multi-key hook *)

(** X3.  The values depend on the query only through the raw values of the
    key map's keys: two queries that agree on those keys give the same
    values, whatever other parameters they carry. *)
Theorem values_ignore_other_parameters dflt (q1 q2 : jsobj)
    (keys : gmap string Serializers) opts :
  (∀ k, k ∈ dom keys → get q1 k = get q2 k) →
  (UseQueryStates.useQueryStates dflt q1 keys opts).1
  = (UseQueryStates.useQueryStates dflt q2 keys opts).1.
Proof.
  intros Hagree. simpl. apply map_eq. intros k.
  rewrite !lookup_parseObject.
  destruct (keys !! k) as [v|] eqn:Hk; [simpl|done].
  rewrite Hagree; [done|]. apply elem_of_dom. eauto.
Qed.

Lemma values_ignore_other_parameters_witness :
  (UseQueryStates.useQueryStates utils.defaultSerializer
     {[ "a" := VStr "1"; "z" := VStr "9" ]} {[ "a" := queryTypes.integer ]} None).1
  = (UseQueryStates.useQueryStates utils.defaultSerializer
       {[ "a" := VStr "1" ]} {[ "a" := queryTypes.integer ]} None).1.
Proof.
  apply (values_ignore_other_parameters utils.defaultSerializer
           {[ "a" := VStr "1"; "z" := VStr "9" ]} {[ "a" := VStr "1" ]}
           {[ "a" := queryTypes.integer ]} None).
  intros k Hk. rewrite dom_singleton_L in Hk.
  apply elem_of_singleton in Hk. subst k. reflexivity.
Defined.

(** ** The patch function of the single-key hook *)

Section SingleKeyPatch.
Variables (key : string) (history : HistoryOptions).
Variables (parse serialize : jsval → jsval).

Local Abbreviation setValue := (UseQueryState.update key history parse serialize).

(** X4.  The patch function of a functional update touches its own key only:
    every other key of the dictionary is as before, and the key holds the
    serialized new value when that is defined, its previous entry
    otherwise. *)
Theorem single_patch_touches_only_its_key
    (f : jsval → jsval) options tr log (d : jsobj) :
  let newVal := serialize (f (parse (get d key))) in
  ∃ c result,
    setValue (UseQueryState.Updater f) options tr log = log ++ [c]
    ∧ callQuery c d = Some result
    ∧ delete key result = delete key d
    ∧ result !! key = if is_undefined newVal then d !! key else Some newVal.
Proof.
  intros newVal. do 2 eexists.
  split; [apply single_update_log|]. split; [apply single_patch_apply|].
  simpl. fold newVal. destruct (is_undefined newVal).
  - by split.
  - split; [apply delete_insert_eq | apply lookup_insert_eq].
Qed.



End SingleKeyPatch.



(** X8.  The patch functions of two single-key hooks bound to different keys
    commute: applied in either order to a dictionary they give the same
    dictionary. *)
Theorem single_patches_on_distinct_keys_commute
    key1 key2 h1 h2 (parse1 parse2 serialize1 serialize2 f1 f2 : jsval → jsval)
    o1 o2 t1 t2 log1 log2 (d : jsobj) :
  key1 ≠ key2 →
  ∃ c1 c2,
    UseQueryState.update key1 h1 parse1 serialize1
      (UseQueryState.Updater f1) o1 t1 log1 = log1 ++ [c1]
    ∧ UseQueryState.update key2 h2 parse2 serialize2
        (UseQueryState.Updater f2) o2 t2 log2 = log2 ++ [c2]
    ∧ callQuery c1 d ≫= callQuery c2 = callQuery c2 d ≫= callQuery c1.
Proof.
  intros Hne. do 2 eexists.
  split; [apply single_update_log|]. split; [apply single_update_log|].
  rewrite !single_patch_apply. cbn [mbind option_bind].
  rewrite !single_patch_apply. cbv zeta. f_equal.
  destruct (is_undefined (serialize1 (f1 (parse1 (get d key1))))) eqn:E1;
    destruct (is_undefined (serialize2 (f2 (parse2 (get d key2))))) eqn:E2;
    rewrite ?get_insert_ne by done; rewrite ?E1, ?E2; try done.
  by apply insert_insert_ne.
Qed.

Lemma single_patches_on_distinct_keys_commute_witness :
  ∃ c1 c2,
    UseQueryState.update "a" replace queryTypes.integer_parse
      queryTypes.integer_serialize (UseQueryState.Updater Sample.increment)
      None VUndefined [] = [c1]
    ∧ UseQueryState.update "b" push queryTypes.integer_parse
        queryTypes.integer_serialize (UseQueryState.Updater Sample.increment)
        None VUndefined [] = [c2]
    ∧ callQuery c1 {[ "a" := VStr "1"; "b" := VStr "5" ]} ≫= callQuery c2
      = callQuery c2 {[ "a" := VStr "1"; "b" := VStr "5" ]} ≫= callQuery c1.
Proof.
  apply (single_patches_on_distinct_keys_commute "a" "b" replace push
           queryTypes.integer_parse queryTypes.integer_parse
           queryTypes.integer_serialize queryTypes.integer_serialize
           Sample.increment Sample.increment None None VUndefined VUndefined
           [] [] {[ "a" := VStr "1"; "b" := VStr "5" ]}).
  discriminate.
Defined.

(** ** The patch of the multi-key hook *)

(** [parseObject] reads the query at the keys of the key map only. *)
Lemma parseObject_ext (q1 q2 : jsobj) (keys : gmap string Serializers) :
  (∀ k, k ∈ dom keys → get q1 k = get q2 k) →
  UseQueryStates.parseObject q1 keys = UseQueryStates.parseObject q2 keys.
Proof.
  intros Hagree. apply map_eq. intros k. rewrite !lookup_parseObject.
  destruct (keys !! k) as [v|] eqn:Hk; [simpl|done].
  rewrite Hagree; [done|]. apply elem_of_dom. eauto.
Qed.

Lemma dom_serialized_subseteq dflt (vals : jsobj) (keys : gmap string Serializers) :
  dom (UseQueryStates.serializeAndRemoveUndefined dflt vals keys) ⊆ dom keys.
Proof.
  intros k. rewrite !elem_of_dom, lookup_serializeAndRemoveUndefined.
  destruct (keys !! k); simpl; [by eauto|]. by intros [? ?].
Qed.

Section MultiKeyPatch.
Variable defaultSerializer : jsval → jsval.
Variables (keys : gmap string Serializers) (history : HistoryOptions).

Local Abbreviation setValues := (UseQueryStates.update defaultSerializer keys history).


(** X11.  No property of the patch object of a direct multi-key update holds
    [undefined]: a key whose serializer returned [undefined] is left out
    (where the single-key hook keeps the key with [undefined]). *)
Theorem multi_patch_has_no_undefined (vals : jsobj) options tr log :
  ∃ c patch,
    setValues (UseQueryStates.Direct vals) options tr log = log ++ [c]
    ∧ query c = QueryObject patch
    ∧ map_Forall (λ _ v, is_undefined v = false) patch.
Proof.
  do 2 eexists. split; [apply multi_update_log|]. split; [reflexivity|].
  intros k v. rewrite lookup_serializeAndRemoveUndefined.
  destruct (keys !! k) as [s|]; simpl; [|done].
  unfold serializedEntry. destruct (has vals k); [|done].
  simpl. destruct (is_undefined _) eqn:Hu; simpl; [done|].
  by intros [= <-].
Qed.

End MultiKeyPatch.

(** X13.  No patch function removes a key: every key of the dictionary a
    patch function is applied to is a key of its result, in both hooks. *)
Theorem patch_functions_never_remove_keys :
  (∀ key history parse serialize (f : jsval → jsval) options tr log (d : jsobj),
     ∃ c result,
       UseQueryState.update key history parse serialize
         (UseQueryState.Updater f) options tr log = log ++ [c]
       ∧ callQuery c d = Some result
       ∧ dom d ⊆ dom result)
  ∧ (∀ dflt keys history (f : jsobj → jsobj) options tr log (d : jsobj),
       ∃ c result,
         UseQueryStates.update dflt keys history
           (UseQueryStates.UpdaterFn f) options tr log = log ++ [c]
         ∧ callQuery c d = Some result
         ∧ dom d ⊆ dom result).
Proof.
  split.
  - intros. do 2 eexists. split; [apply single_update_log|].
    split; [apply single_patch_apply|]. simpl.
    destruct (is_undefined _); [done|].
    rewrite dom_insert_L. set_solver.
  - intros. do 2 eexists. split; [apply multi_update_log|].
    split; [apply multi_patch_apply|].
    unfold spread. rewrite dom_union_L. set_solver.
Qed.

(** X14.  The patch functions of two multi-key hooks whose key maps share no
    key commute: applied in either order to a dictionary they give the same
    dictionary. *)
Theorem multi_patches_on_disjoint_key_maps_commute
    dflt (keys1 keys2 : gmap string Serializers) h1 h2
    (f1 f2 : jsobj → jsobj) o1 o2 t1 t2 log1 log2 (d : jsobj) :
  dom keys1 ## dom keys2 →
  ∃ c1 c2,
    UseQueryStates.update dflt keys1 h1
      (UseQueryStates.UpdaterFn f1) o1 t1 log1 = log1 ++ [c1]
    ∧ UseQueryStates.update dflt keys2 h2
        (UseQueryStates.UpdaterFn f2) o2 t2 log2 = log2 ++ [c2]
    ∧ callQuery c1 d ≫= callQuery c2 = callQuery c2 d ≫= callQuery c1.
Proof.
  intros Hdisj. do 2 eexists.
  split; [apply multi_update_log|]. split; [apply multi_update_log|].
  rewrite !multi_patch_apply. cbn [mbind option_bind].
  rewrite !multi_patch_apply. f_equal.
  set (S1 := UseQueryStates.serializeAndRemoveUndefined dflt
               (f1 (UseQueryStates.parseObject d keys1)) keys1).
  set (S2 := UseQueryStates.serializeAndRemoveUndefined dflt
               (f2 (UseQueryStates.parseObject d keys2)) keys2).
  assert (dom S1 ⊆ dom keys1) as HS1 by apply dom_serialized_subseteq.
  assert (dom S2 ⊆ dom keys2) as HS2 by apply dom_serialized_subseteq.
  assert (UseQueryStates.parseObject (spread d S1) keys2
          = UseQueryStates.parseObject d keys2) as ->.
  { apply parseObject_ext. intros k Hk. unfold get. rewrite lookup_spread.
    destruct (S1 !! k) eqn:E; [|done].
    exfalso. apply (Hdisj k); [|done]. apply HS1, elem_of_dom. eauto. }
  assert (UseQueryStates.parseObject (spread d S2) keys1
          = UseQueryStates.parseObject d keys1) as ->.
  { apply parseObject_ext. intros k Hk. unfold get. rewrite lookup_spread.
    destruct (S2 !! k) eqn:E; [|done].
    exfalso. apply (Hdisj k); [done|]. apply HS2, elem_of_dom. eauto. }
  fold S1 S2. unfold spread.
  rewrite !(assoc_L (∪)). f_equal.
  apply map_union_comm, map_disjoint_dom. set_solver.
Qed.

Lemma multi_patches_on_disjoint_key_maps_commute_witness :
  ∃ c1 c2,
    UseQueryStates.update utils.defaultSerializer
      {[ "a" := Sample.verbatim ]} replace
      (UseQueryStates.UpdaterFn (λ _, {[ "a" := VStr "x" ]})) None VUndefined []
    = [c1]
    ∧ UseQueryStates.update utils.defaultSerializer
        {[ "b" := Sample.verbatim ]} replace
        (UseQueryStates.UpdaterFn (λ _, {[ "b" := VStr "y" ]})) None VUndefined []
      = [c2]
    ∧ callQuery c1 {[ "z" := VStr "9" ]} ≫= callQuery c2
      = callQuery c2 {[ "z" := VStr "9" ]} ≫= callQuery c1.
Proof.
  apply (multi_patches_on_disjoint_key_maps_commute utils.defaultSerializer
           {[ "a" := Sample.verbatim ]} {[ "b" := Sample.verbatim ]}
           replace replace
           (λ _, {[ "a" := VStr "x" ]}) (λ _, {[ "b" := VStr "y" ]})
           None None VUndefined VUndefined [] [] {[ "z" := VStr "9" ]}).
  rewrite !dom_singleton_L. apply disjoint_singleton_l.
  rewrite elem_of_singleton. discriminate.
Defined.

(** ** The dependency array of the memoised value *)

Lemma concat_cons2 (sep x y : string) (l : list string) :
  String.concat sep (x :: y :: l)
  = String.append x (String.append sep (String.concat sep (y :: l))).
Proof. reflexivity. Qed.

(** Two separator-free strings followed by a separator: the strings and the
    rests are equal. *)
Lemma append_bar_inj (s t r r' : string) :
  bar_free s = true → bar_free t = true →
  String.append s (String "|" r) = String.append t (String "|" r') →
  s = t ∧ r = r'.
Proof.
  revert t. induction s as [|a s IH]; intros [|b t]; simpl; intros Hs Ht E.
  - by injection E.
  - injection E as <- _. by rewrite Ascii.eqb_refl in Ht.
  - injection E as -> _. by rewrite Ascii.eqb_refl in Hs.
  - injection E as -> E.
    apply andb_prop in Hs as [_ Hs]. apply andb_prop in Ht as [_ Ht].
    destruct (IH t Hs Ht E) as [-> ->]. done.
Qed.

(** A separator-free string does not contain a separator. *)
Lemma append_bar_not_free (s r t : string) :
  bar_free t = true → String.append s (String "|" r) ≠ t.
Proof.
  revert t. induction s as [|a s IH]; intros [|b t]; simpl; intros Ht E;
    try discriminate E.
  - injection E as <- _. by rewrite Ascii.eqb_refl in Ht.
  - injection E as -> E. apply andb_prop in Ht as [_ Ht]. by apply (IH t).
Qed.

Lemma concat_bar_inj (l1 l2 : list string) :
  Forall (λ s, bar_free s = true) l1 → Forall (λ s, bar_free s = true) l2 →
  l1 ≠ [] → l2 ≠ [] →
  String.concat "|" l1 = String.concat "|" l2 → l1 = l2.
Proof.
  revert l2. induction l1 as [|x xs IH]; intros [|y ys] H1 H2 N1 N2 E; try done.
  apply Forall_cons in H1 as [Hx H1]. apply Forall_cons in H2 as [Hy H2].
  destruct xs as [|x' xs], ys as [|y' ys].
  - simpl in E. by subst.
  - rewrite concat_cons2 in E. simpl in E.
    symmetry in E. by apply append_bar_not_free in E.
  - rewrite concat_cons2 in E. simpl in E.
    by apply append_bar_not_free in E.
  - rewrite !concat_cons2 in E.
    change (String.append "|" ?r) with (String "|" r) in E.
    apply append_bar_inj in E as [-> E]; [|done..].
    f_equal. by apply IH.
Qed.

Section MemoDeps.
Variable ToString : jsval → string.

Lemma join_strings (sep : string) (l : list string) :
  Memo.join ToString sep (VStr <$> l) = String.concat sep l.
Proof.
  unfold Memo.join. f_equal. rewrite <- list_fmap_compose.
  by rewrite <- (list_fmap_id l) at 2.
Qed.

(** X15.  The dependency array of the memoised value does not tell a string
    array from the single string equal to its ["|"]-join, nor the empty
    array from the array holding one empty string: the dependency arrays of
    such raw values are equal. *)
Theorem valueDeps_joined_array_collides
    (l : list string) dynamic (parse serialize : jsval → jsval) :
  Memo.valueDeps ToString (VArr (VStr <$> l)) dynamic parse serialize
  = Memo.valueDeps ToString (VStr (String.concat "|" l)) dynamic parse serialize
  ∧ Memo.valueDeps ToString (VArr []) dynamic parse serialize
    = Memo.valueDeps ToString (VArr [VStr ""]) dynamic parse serialize.
Proof.
  unfold Memo.valueDeps. split.
  - by rewrite join_strings.
  - reflexivity.
Qed.

(** X16.  Two non-empty string arrays none of whose elements contains ["|"]
    have equal dependency arrays only when they are the same array. *)
Theorem valueDeps_tell_bar_free_arrays_apart
    (l1 l2 : list string) dynamic (parse serialize : jsval → jsval) :
  l1 ≠ [] → l2 ≠ [] →
  Forall (λ s, bar_free s = true) l1 → Forall (λ s, bar_free s = true) l2 →
  Memo.valueDeps ToString (VArr (VStr <$> l1)) dynamic parse serialize
  = Memo.valueDeps ToString (VArr (VStr <$> l2)) dynamic parse serialize →
  l1 = l2.
Proof.
  intros N1 N2 H1 H2 E. unfold Memo.valueDeps in E.
  injection E as E. rewrite !join_strings in E.
  by apply concat_bar_inj.
Qed.
End MemoDeps.

Lemma valueDeps_tell_bar_free_arrays_apart_witness :
  Forall (λ s, bar_free s = true) ["a"; "b"] ∧ ["a"; "b"] = ["a"; "b"].
Proof.
  split; [repeat constructor|].
  apply (valueDeps_tell_bar_free_arrays_apart (λ _, "") ["a"; "b"] ["a"; "b"]
           false UseQueryState.default_parse utils.defaultSerializer).
  - discriminate.
  - discriminate.
  - repeat constructor.
  - repeat constructor.
  - reflexivity.
Defined.


(** * Exceptions and inherited properties *)

(** ** The setters of [Precise] *)

Lemma precise_single_update proto key history parse serialize su options tr log :
  Precise.QueryState.update proto key history parse serialize su options tr log
  = match Precise.QueryState.queryUpdater proto key parse serialize su with
    | Precise.Returns q =>
        (Precise.Returns (),
         log ++ [Precise.mkNavCall (UseQueryState.historyMode history options)
                   q VUndefined tr])
    | Precise.Throws => (Precise.Throws, log)
    end.
Proof.
  unfold Precise.QueryState.update.
  destruct (Precise.QueryState.queryUpdater _ _ _ _ _); [|done].
  by destruct (UseQueryState.historyMode history options).
Qed.

Lemma precise_multi_update proto dflt keys history su options tr log :
  Precise.QueryStates.update proto dflt keys history su options tr log
  = match Precise.QueryStates.queryUpdater proto dflt keys su with
    | Precise.Returns q =>
        (Precise.Returns (),
         log ++ [Precise.mkNavCall (UseQueryStates.historyMode history options)
                   q VUndefined tr])
    | Precise.Throws => (Precise.Throws, log)
    end.
Proof.
  unfold Precise.QueryStates.update.
  destruct (Precise.QueryStates.queryUpdater _ _ _ _); [|done].
  by destruct (UseQueryStates.historyMode history options).
Qed.

(** The claim C8 as stated fails: a direct update whose [serialize] throws
    leaves the setter before [push] or [replace] is reached, so the
    invocation makes no call to the navigation service. *)
Lemma setter_makes_no_call_when_serialize_throws :
  let run :=
    Precise.QueryState.update PreciseSample.objectPrototype "val" replace
      (Precise.total UseQueryState.default_parse) PreciseSample.failing
      (Precise.QueryState.Direct (VStr "x")) None VUndefined [] in
  run = (Precise.Throws, []) ∧ ¬ ∃ c, run.2 = [] ++ [c].
Proof.
  split; [reflexivity|].
  intros [c Hc]. discriminate Hc.
Qed.

(** C8 (amended).  One invocation of a setter makes at most one call to the
    navigation service, after the calls made before.  It makes exactly one
    and returns, or makes none and throws.  A functional update always makes
    exactly one: its updater and serializers run only when the patch function
    is applied.  A direct update makes one exactly when the serialization it
    runs at call time returns. *)
Theorem setter_calls_navigation_at_most_once :
  (∀ proto key history parse serialize stateUpdater options tr log,
     let run := Precise.QueryState.update proto key history parse serialize
                  stateUpdater options tr log in
     ((run.1 = Precise.Returns () ∧ ∃ c, run.2 = log ++ [c])
      ∨ (run.1 = Precise.Throws ∧ run.2 = log))
     ∧ match stateUpdater with
       | Precise.QueryState.Updater _ => run.1 = Precise.Returns ()
       | Precise.QueryState.Direct v =>
           run.1 = Precise.Returns () ↔ ∃ s, serialize v = Precise.Returns s
       end)
  ∧ (∀ proto dflt keys history stateUpdater options tr log,
       let run := Precise.QueryStates.update proto dflt keys history
                    stateUpdater options tr log in
       ((run.1 = Precise.Returns () ∧ ∃ c, run.2 = log ++ [c])
        ∨ (run.1 = Precise.Throws ∧ run.2 = log))
       ∧ match stateUpdater with
         | Precise.QueryStates.UpdaterFn _ => run.1 = Precise.Returns ()
         | Precise.QueryStates.Direct vals =>
             run.1 = Precise.Returns ()
             ↔ ∃ o, Precise.QueryStates.serializeAndRemoveUndefined
                      proto dflt vals keys = Precise.Returns o
         end).
Proof.
  split.
  - intros proto key history parse serialize su options tr log run.
    subst run. rewrite precise_single_update.
    destruct su as [v|f]; simpl.
    + destruct (serialize v) as [s|]; simpl.
      * split; [left; eauto|]. split; eauto.
      * split; [right; eauto|]. split; [done|]. by intros [? ?].
    + split; [left; eauto|done].
  - intros proto dflt keys history su options tr log run.
    subst run. rewrite precise_multi_update.
    destruct su as [vals|f]; simpl.
    + destruct (Precise.QueryStates.serializeAndRemoveUndefined _ _ _ _) as [o|];
        simpl.
      * split; [left; eauto|]. split; eauto.
      * split; [right; eauto|]. split; [done|]. by intros [? ?].
    + split; [left; eauto|done].
Qed.

Lemma setter_calls_navigation_at_most_once_witness :
  ∃ c, (Precise.QueryState.update PreciseSample.objectPrototype "val" replace
          (Precise.total UseQueryState.default_parse)
          (Precise.total utils.defaultSerializer)
          (Precise.QueryState.Direct (VStr "bar")) None VUndefined []).2 = [c].
Proof.
  destruct (proj1 setter_calls_navigation_at_most_once
              PreciseSample.objectPrototype "val" replace
              (Precise.total UseQueryState.default_parse)
              (Precise.total utils.defaultSerializer)
              (Precise.QueryState.Direct (VStr "bar")) None VUndefined [])
    as [[[_ Hone]|[Hthrow _]] _].
  - exact Hone.
  - discriminate Hthrow.
Defined.

(** ** The loops of the multi-key hook in [Precise] *)

Section PreciseLoops.
Variable objectPrototype : jsobj.

(** [parseObject] returns when every [parse] returns; the values then hold
    the parsed raw value of every key of the key map but ["__proto__"]. *)
Lemma precise_parseObject_spec (q : jsobj) (keys : gmap string Precise.Serializers) :
  match Precise.QueryStates.parseObject objectPrototype q keys with
  | Precise.Returns values =>
      (∀ k, values !! k
            = if decide (k = "__proto__") then None
              else keys !! k ≫= Precise.QueryStates.parsedEntry objectPrototype q k)
      ∧ (∀ k v, keys !! k = Some v →
                ∃ parsed, Precise.parse v (Precise.get objectPrototype q k)
                          = Precise.Returns parsed)
  | Precise.Throws =>
      ∃ k v, keys !! k = Some v
             ∧ Precise.parse v (Precise.get objectPrototype q k) = Precise.Throws
  end.
Proof.
  unfold Precise.QueryStates.parseObject.
  apply (map_fold_weak_ind (λ r (m : gmap string Precise.Serializers),
    match r with
    | Precise.Returns values =>
        (∀ k, values !! k
              = if decide (k = "__proto__") then None
                else m !! k ≫= Precise.QueryStates.parsedEntry objectPrototype q k)
        ∧ (∀ k v, m !! k = Some v →
                  ∃ parsed, Precise.parse v (Precise.get objectPrototype q k)
                            = Precise.Returns parsed)
    | Precise.Throws =>
        ∃ k v, m !! k = Some v
               ∧ Precise.parse v (Precise.get objectPrototype q k) = Precise.Throws
    end)).
  - split.
    + intros k. rewrite !lookup_empty. by case_decide.
    + intros k v. by rewrite lookup_empty.
  - intros i x m r Hi IH. destruct r as [values|]; simpl.
    + destruct IH as [Hlook Hall].
      destruct (Precise.parse x (Precise.get objectPrototype q i)) as [parsed|] eqn:Hp;
        simpl.
      * split.
        -- intros k. unfold Precise.assign.
           destruct (decide (i = k)) as [<-|Hne].
           ++ rewrite lookup_insert_eq. simpl.
              unfold Precise.QueryStates.parsedEntry. rewrite Hp.
              case_decide; [|by rewrite lookup_insert_eq].
              rewrite Hlook. by rewrite decide_True.
           ++ rewrite (lookup_insert_ne m) by done.
              case_decide; [done|]. by rewrite lookup_insert_ne.
        -- intros k v. destruct (decide (i = k)) as [<-|Hne].
           ++ rewrite lookup_insert_eq. intros [= <-]. eauto.
           ++ rewrite lookup_insert_ne by done. apply Hall.
      * exists i, x. by rewrite lookup_insert_eq.
    + destruct IH as (k & v & Hk & Hthrow). exists k, v. split; [|done].
      rewrite lookup_insert_ne; [done|]. intros ->. congruence.
Qed.

Variable defaultSerializer : jsval → Precise.outcome jsval.

(** [serializeAndRemoveUndefined] returns when every serializer it runs
    returns; the serialized partial then holds the defined results of the
    keys of the key map found in the update mapping, but ["__proto__"]. *)
Lemma precise_serialize_spec (vals : jsobj) (keys : gmap string Precise.Serializers) :
  match Precise.QueryStates.serializeAndRemoveUndefined
          objectPrototype defaultSerializer vals keys with
  | Precise.Returns serialized =>
      ∀ k, serialized !! k
           = if decide (k = "__proto__") then None
             else keys !! k ≫= Precise.QueryStates.serializedEntry
                                  objectPrototype defaultSerializer vals k
  | Precise.Throws =>
      ∃ k v, keys !! k = Some v
             ∧ Precise.has objectPrototype vals k = true
             ∧ (default defaultSerializer (Precise.serialize v)) (VObj vals)
               = Precise.Throws
  end.
Proof.
  unfold Precise.QueryStates.serializeAndRemoveUndefined.
  apply (map_fold_weak_ind (λ r (m : gmap string Precise.Serializers),
    match r with
    | Precise.Returns serialized =>
        ∀ k, serialized !! k
             = if decide (k = "__proto__") then None
               else m !! k ≫= Precise.QueryStates.serializedEntry
                                 objectPrototype defaultSerializer vals k
    | Precise.Throws =>
        ∃ k v, m !! k = Some v
               ∧ Precise.has objectPrototype vals k = true
               ∧ (default defaultSerializer (Precise.serialize v)) (VObj vals)
                 = Precise.Throws
    end)).
  - intros k. rewrite !lookup_empty. by case_decide.
  - intros i x m r Hi IH. unfold Precise.QueryStates.serializeStep.
    destruct r as [serialized|]; simpl.
    + assert (∀ k, i ≠ k →
                serialized !! k
                = if decide (k = "__proto__") then None
                  else <[i:=x]> m !! k ≫= Precise.QueryStates.serializedEntry
                                            objectPrototype defaultSerializer vals k)
        as Hother.
      { intros k Hne. rewrite lookup_insert_ne by done. apply IH. }
      assert (serialized !! i = None) as Hfresh.
      { rewrite IH, Hi. by case_decide. }
      destruct (Precise.has objectPrototype vals i) eqn:Hhas.
      * destruct ((default defaultSerializer (Precise.serialize x)) (VObj vals))
          as [sv|] eqn:Hs; simpl.
        -- intros k. destruct (decide (i = k)) as [<-|Hne].
           ++ rewrite lookup_insert_eq. simpl.
              unfold Precise.QueryStates.serializedEntry. rewrite Hhas, Hs.
              unfold Precise.assign.
              destruct (is_undefined sv); simpl.
              ** rewrite Hfresh. by case_decide.
              ** case_decide; [done|]. by rewrite lookup_insert_eq.
           ++ rewrite <- Hother by done. unfold Precise.assign.
              destruct (is_undefined sv); simpl; [done|].
              case_decide; [done|]. by rewrite lookup_insert_ne.
        -- exists i, x. by rewrite lookup_insert_eq.
      * simpl. intros k. destruct (decide (i = k)) as [<-|Hne].
        -- rewrite lookup_insert_eq. simpl.
           unfold Precise.QueryStates.serializedEntry. rewrite Hhas, Hfresh.
           by case_decide.
        -- by apply Hother.
    + destruct IH as (k & v & Hk & Hthrow). exists k, v. split; [|done].
      rewrite lookup_insert_ne; [done|]. intros ->. congruence.
Qed.
End PreciseLoops.

(** ** The multi-key hook with inherited properties *)

Section PreciseMultiKey.
Variable objectPrototype : jsobj.
Variable defaultSerializer : jsval → Precise.outcome jsval.
Variable keys : gmap string Precise.Serializers.

Lemma precise_has_outside (vals : jsobj) (k : string) :
  dom vals ## dom keys → dom objectPrototype ## dom keys →
  is_Some (keys !! k) → Precise.has objectPrototype vals k = false.
Proof.
  intros Hvals Hproto Hk. apply elem_of_dom in Hk. unfold Precise.has.
  destruct (vals !! k) eqn:Hv.
  { exfalso. apply (Hvals k); [|done]. apply elem_of_dom. eauto. }
  destruct (objectPrototype !! k) eqn:Hp; [|done].
  exfalso. apply (Hproto k); [|done]. apply elem_of_dom. eauto.
Qed.

Lemma precise_serialize_disjoint (vals : jsobj) :
  dom vals ## dom keys → dom objectPrototype ## dom keys →
  Precise.QueryStates.serializeAndRemoveUndefined
    objectPrototype defaultSerializer vals keys = Precise.Returns ∅.
Proof.
  intros Hvals Hproto.
  pose proof (precise_serialize_spec objectPrototype defaultSerializer vals keys)
    as Hspec.
  destruct (Precise.QueryStates.serializeAndRemoveUndefined _ _ _ _)
    as [serialized|].
  - f_equal. apply map_eq. intros k. rewrite Hspec, lookup_empty.
    case_decide; [done|].
    destruct (keys !! k) as [v|] eqn:Hk; [simpl|done].
    unfold Precise.QueryStates.serializedEntry.
    by rewrite precise_has_outside by eauto.
  - destruct Hspec as (k & v & Hk & Hhas & _).
    rewrite precise_has_outside in Hhas by eauto. discriminate Hhas.
Qed.

(** X2.  When [useQueryStates] returns, the own keys of its values object are
    the keys of the key map other than ["__proto__"], each holding that
    key's [parse] applied to what [query[k]] reads, own or inherited; a key
    that neither the query nor [Object.prototype] has is parsed from
    [undefined]. *)
Theorem values_own_keys_follow_key_map (routerQuery : jsobj) opts values setValues :
  Precise.QueryStates.useQueryStates objectPrototype defaultSerializer
    routerQuery keys opts = Precise.Returns (values, setValues) →
  dom values = dom keys ∖ {[ "__proto__" ]}
  ∧ (∀ k v, keys !! k = Some v → k ≠ "__proto__" →
            ∃ parsed,
              Precise.parse v (Precise.get objectPrototype routerQuery k)
              = Precise.Returns parsed
              ∧ values !! k = Some parsed)
  ∧ (∀ k v, keys !! k = Some v → k ≠ "__proto__" →
            routerQuery !! k = None → objectPrototype !! k = None →
            ∃ parsed, Precise.parse v VUndefined = Precise.Returns parsed
                      ∧ values !! k = Some parsed).
Proof.
  unfold Precise.QueryStates.useQueryStates. intros Hret.
  pose proof (precise_parseObject_spec objectPrototype routerQuery keys) as Hspec.
  destruct (Precise.QueryStates.parseObject objectPrototype routerQuery keys)
    as [values'|]; simpl in Hret; [|discriminate Hret].
  injection Hret as -> _. destruct Hspec as [Hlook Hall].
  assert (∀ k v, keys !! k = Some v → k ≠ "__proto__" →
            ∃ parsed,
              Precise.parse v (Precise.get objectPrototype routerQuery k)
              = Precise.Returns parsed
              ∧ values !! k = Some parsed) as Hkey.
  { intros k v Hk Hne. destruct (Hall k v Hk) as [parsed Hp].
    exists parsed. split; [done|].
    rewrite Hlook, decide_False, Hk by done. simpl.
    unfold Precise.QueryStates.parsedEntry. by rewrite Hp. }
  split; [|split; [done|]].
  - apply set_eq. intros k.
    rewrite elem_of_difference, !elem_of_dom, not_elem_of_singleton.
    split.
    + intros [x Hx]. rewrite Hlook in Hx. case_decide; [done|].
      split; [|done]. destruct (keys !! k); [by eauto|done].
    + intros [[v Hk] Hne]. destruct (Hkey k v Hk Hne) as (parsed & _ & Hv).
      by eauto.
  - intros k v Hk Hne Hq Hp. destruct (Hkey k v Hk Hne) as (parsed & Hparse & Hv).
    exists parsed. split; [|done].
    unfold Precise.get in Hparse. by rewrite Hq, Hp in Hparse.
Qed.

(** X10.  For a key map none of whose keys is a member name of
    [Object.prototype], an update mapping that shares no key with the key
    map (the empty mapping included) changes nothing: the patch object of a
    direct update is empty, and the patch function of a functional update
    returns the dictionary it is given. *)
Theorem multi_update_outside_key_map_is_empty history :
  (∀ (vals : jsobj) options tr log,
     dom vals ## dom keys → dom objectPrototype ## dom keys →
     Precise.QueryStates.update objectPrototype defaultSerializer keys history
       (Precise.QueryStates.Direct vals) options tr log
     = (Precise.Returns (),
        log ++ [Precise.mkNavCall (UseQueryStates.historyMode history options)
                  (Precise.QueryObject ∅) VUndefined tr]))
  ∧ (∀ f options tr log (d prev updated : jsobj),
       Precise.QueryStates.parseObject objectPrototype d keys
       = Precise.Returns prev →
       f prev = Precise.Returns updated →
       dom updated ## dom keys → dom objectPrototype ## dom keys →
       ∃ c, Precise.QueryStates.update objectPrototype defaultSerializer keys
              history (Precise.QueryStates.UpdaterFn f) options tr log
            = (Precise.Returns (), log ++ [c])
            ∧ Precise.callQuery c d = Precise.Returns d).
Proof.
  split.
  - intros vals options tr log Hvals Hproto.
    rewrite precise_multi_update. simpl.
    by rewrite precise_serialize_disjoint.
  - intros f options tr log d prev updated Hprev Hf Hupd Hproto.
    eexists. split; [rewrite precise_multi_update; reflexivity|].
    unfold Precise.callQuery. simpl. rewrite Hprev. simpl. rewrite Hf. simpl.
    rewrite precise_serialize_disjoint by done. simpl.
    unfold spread. by rewrite (left_id_L ∅ (∪)).
Qed.
End PreciseMultiKey.

Lemma values_own_keys_follow_key_map_witness :
  match Precise.QueryStates.useQueryStates PreciseSample.objectPrototype
          (Precise.total utils.defaultSerializer) {[ "a" := VStr "1" ]}
          {[ "a" := PreciseSample.verbatim; "__proto__" := PreciseSample.verbatim ]}
          None with
  | Precise.Returns (values, _) => dom values = {[ "a" ]}
  | Precise.Throws => False
  end.
Proof.
  destruct (Precise.QueryStates.useQueryStates _ _ _ _ _)
    as [[values setValues]|] eqn:Hrun; [|vm_compute in Hrun; discriminate Hrun].
  destruct (values_own_keys_follow_key_map _ _ _ _ _ _ _ Hrun) as [Hdom _].
  rewrite Hdom. rewrite dom_insert_L, dom_singleton_L. set_solver.
Defined.

Lemma multi_update_outside_key_map_is_empty_witness :
  Precise.QueryStates.update PreciseSample.objectPrototype
    (Precise.total utils.defaultSerializer) {[ "a" := PreciseSample.verbatim ]}
    replace (Precise.QueryStates.Direct {[ "b" := VStr "y" ]}) None VUndefined []
  = (Precise.Returns (),
     [Precise.mkNavCall replace (Precise.QueryObject ∅) VUndefined VUndefined])
  ∧ ∃ c, Precise.QueryStates.update PreciseSample.objectPrototype
           (Precise.total utils.defaultSerializer)
           {[ "a" := PreciseSample.verbatim ]} replace
           (Precise.QueryStates.UpdaterFn (Precise.total (λ _, ∅)))
           None VUndefined []
         = (Precise.Returns (), [c])
         ∧ Precise.callQuery c {[ "a" := VStr "1" ]}
           = Precise.Returns {[ "a" := VStr "1" ]}.
Proof.
  assert (dom PreciseSample.objectPrototype
          ## dom ({[ "a" := PreciseSample.verbatim ]}
                  : gmap string Precise.Serializers)) as Hrealm.
  { rewrite dom_singleton_L. apply disjoint_singleton_r.
    rewrite elem_of_dom. vm_compute. by intros [? ?]. }
  split.
  - apply (proj1 (multi_update_outside_key_map_is_empty
                    PreciseSample.objectPrototype
                    (Precise.total utils.defaultSerializer)
                    {[ "a" := PreciseSample.verbatim ]} replace)
             {[ "b" := VStr "y" ]} None VUndefined []); [|exact Hrealm].
    rewrite !dom_singleton_L. apply disjoint_singleton_l.
    rewrite elem_of_singleton. discriminate.
  - apply (proj2 (multi_update_outside_key_map_is_empty
                    PreciseSample.objectPrototype
                    (Precise.total utils.defaultSerializer)
                    {[ "a" := PreciseSample.verbatim ]} replace)
             (Precise.total (λ _, ∅)) None VUndefined []
             {[ "a" := VStr "1" ]} {[ "a" := VStr "1" ]} ∅);
      [vm_compute; reflexivity | reflexivity | | exact Hrealm].
    rewrite dom_empty_L. apply disjoint_empty_l.
Defined.

(** A key map key named like a member of [Object.prototype] is found by
    [k in vals] in every update mapping, the empty one included. *)
Example inherited_key_is_always_updated :
  Precise.QueryStates.update PreciseSample.objectPrototype
    (Precise.total utils.defaultSerializer)
    {[ "toString" := PreciseSample.verbatim ]}
    replace (Precise.QueryStates.Direct ∅) None VUndefined []
  = (Precise.Returns (),
     [Precise.mkNavCall replace (Precise.QueryObject {[ "toString" := VObj ∅ ]})
        VUndefined VUndefined]).
Proof. vm_compute. reflexivity. Qed.

(** ** Where the two renderings agree

    For caller functions that always return and keys that are not member
    names of [Object.prototype], [Precise] computes what the definitions of
    the first part compute. *)

Section ModelsAgree.
Variable objectPrototype : jsobj.

Lemma precise_get_own (o : jsobj) (k : string) :
  objectPrototype !! k = None ∨ is_Some (o !! k) →
  Precise.get objectPrototype o k = get o k.
Proof.
  unfold Precise.get, get. intros [Hp|[v Hv]].
  - rewrite Hp. by destruct (o !! k).
  - by rewrite Hv.
Qed.

Lemma precise_has_own (o : jsobj) (k : string) :
  objectPrototype !! k = None → Precise.has objectPrototype o k = has o k.
Proof. unfold Precise.has, has. intros ->. by destruct (o !! k). Qed.

Section KeyMap.
Variable keys : gmap string Serializers.
Hypothesis keys_not_inherited : dom objectPrototype ## dom keys.
Hypothesis keys_not_proto : "__proto__" ∉ dom keys.

Lemma key_not_inherited (k : string) :
  is_Some (keys !! k) → objectPrototype !! k = None.
Proof using keys_not_inherited.
  intros Hk. apply elem_of_dom in Hk.
  destruct (objectPrototype !! k) eqn:Hp; [|done].
  exfalso. apply (keys_not_inherited k); [|done]. apply elem_of_dom. eauto.
Qed.

Lemma precise_parseObject_agrees (q : jsobj) :
  Precise.QueryStates.parseObject objectPrototype q (totalSerializers <$> keys)
  = Precise.Returns (UseQueryStates.parseObject q keys).
Proof using keys_not_inherited keys_not_proto.
  pose proof (precise_parseObject_spec objectPrototype q
                (totalSerializers <$> keys)) as Hspec.
  destruct (Precise.QueryStates.parseObject _ _ _) as [values|].
  - destruct Hspec as [Hlook _]. f_equal. apply map_eq. intros k.
    rewrite Hlook, lookup_parseObject, lookup_fmap.
    case_decide as Hk.
    + subst k. apply not_elem_of_dom in keys_not_proto.
      by rewrite keys_not_proto.
    + destruct (keys !! k) as [v|] eqn:Hv; [simpl|done].
      unfold Precise.QueryStates.parsedEntry, totalSerializers, Precise.total.
      simpl. rewrite precise_get_own; [done|].
      left. apply key_not_inherited. eauto.
  - destruct Hspec as (k & v & Hk & Hthrow).
    rewrite lookup_fmap in Hk. destruct (keys !! k); [|done].
    injection Hk as <-. discriminate Hthrow.
Qed.

Lemma precise_serialize_agrees (dflt : jsval → jsval) (vals : jsobj) :
  Precise.QueryStates.serializeAndRemoveUndefined objectPrototype
    (Precise.total dflt) vals (totalSerializers <$> keys)
  = Precise.Returns (UseQueryStates.serializeAndRemoveUndefined dflt vals keys).
Proof using keys_not_inherited keys_not_proto.
  pose proof (precise_serialize_spec objectPrototype (Precise.total dflt) vals
                (totalSerializers <$> keys)) as Hspec.
  assert (∀ v, default (Precise.total dflt) (Precise.serialize (totalSerializers v))
               = Precise.total (default dflt (serialize v))) as Hdefault.
  { intros v. unfold totalSerializers. simpl. by destruct (serialize v). }
  destruct (Precise.QueryStates.serializeAndRemoveUndefined _ _ _ _)
    as [serialized|].
  - f_equal. apply map_eq. intros k.
    rewrite Hspec, lookup_serializeAndRemoveUndefined, lookup_fmap.
    case_decide as Hk.
    + subst k. apply not_elem_of_dom in keys_not_proto.
      by rewrite keys_not_proto.
    + destruct (keys !! k) as [v|] eqn:Hv; [simpl|done].
      unfold Precise.QueryStates.serializedEntry, serializedEntry.
      rewrite precise_has_own by (apply key_not_inherited; eauto).
      by rewrite Hdefault.
  - destruct Hspec as (k & v & Hk & _ & Hthrow).
    rewrite lookup_fmap in Hk. destruct (keys !! k) as [v'|]; [|done].
    injection Hk as <-. rewrite Hdefault in Hthrow. discriminate Hthrow.
Qed.

(** The setter of the multi-key hook: the same call, with the same patch. *)
Lemma multi_key_models_agree (dflt : jsval → jsval) history options tr :
  (∀ (vals : jsobj) log,
     Precise.QueryStates.update objectPrototype (Precise.total dflt)
       (totalSerializers <$> keys) history
       (Precise.QueryStates.Direct vals) options tr log
     = (Precise.Returns (),
        log ++ [Precise.mkNavCall (UseQueryStates.historyMode history options)
                  (Precise.QueryObject
                     (UseQueryStates.serializeAndRemoveUndefined dflt vals keys))
                  VUndefined tr]))
  ∧ (∀ (f : jsobj → jsobj) log (d : jsobj),
       ∃ c, Precise.QueryStates.update objectPrototype (Precise.total dflt)
              (totalSerializers <$> keys) history
              (Precise.QueryStates.UpdaterFn (Precise.total f)) options tr log
            = (Precise.Returns (), log ++ [c])
            ∧ Precise.callQuery c d
              = Precise.Returns
                  (spread d (UseQueryStates.serializeAndRemoveUndefined dflt
                               (f (UseQueryStates.parseObject d keys)) keys))).
Proof using keys_not_inherited keys_not_proto.
  split.
  - intros vals log. rewrite precise_multi_update. simpl.
    by rewrite precise_serialize_agrees.
  - intros f log d. eexists.
    split; [rewrite precise_multi_update; reflexivity|].
    unfold Precise.callQuery. simpl.
    rewrite precise_parseObject_agrees. simpl.
    by rewrite precise_serialize_agrees.
Qed.
End KeyMap.

(** The setter of the single-key hook: the same call, with the same patch. *)
Lemma single_key_models_agree key history (parse serialize : jsval → jsval)
    options tr :
  (∀ (v : jsval) log,
     Precise.QueryState.update objectPrototype key history
       (Precise.total parse) (Precise.total serialize)
       (Precise.QueryState.Direct v) options tr log
     = (Precise.Returns (),
        log ++ [Precise.mkNavCall (UseQueryState.historyMode history options)
                  (Precise.QueryObject {[ key := serialize v ]}) VUndefined tr]))
  ∧ (∀ (f : jsval → jsval) log (d : jsobj),
       objectPrototype !! key = None ∨ is_Some (d !! key) →
       ∃ c, Precise.QueryState.update objectPrototype key history
              (Precise.total parse) (Precise.total serialize)
              (Precise.QueryState.Updater (Precise.total f)) options tr log
            = (Precise.Returns (), log ++ [c])
            ∧ Precise.callQuery c d
              = Precise.Returns
                  (let newVal := serialize (f (parse (get d key))) in
                   if is_undefined newVal then d else <[key := newVal]> d)).
Proof.
  split.
  - intros v log. by rewrite precise_single_update.
  - intros f log d Hown. eexists.
    split; [rewrite precise_single_update; reflexivity|].
    unfold Precise.callQuery, Precise.total. simpl.
    rewrite precise_get_own by done.
    by destruct (is_undefined _).
Qed.
End ModelsAgree.
